(** * KubeSphere controller-manager options

    A shallow embedding of
    [cmd/controller-manager/app/options/options.go]: the aggregate
    [KubeSphereControllerManagerOptions], its constructor
    [NewKubeSphereControllerManagerOptions], the flag registration [Flags]
    (with [bindLeaderElectionFlags]) and [Validate].

    The file holds the aggregate only.  The ten sub-option packages
    ([k8s], [jenkins], [s3], [authentication], [ldap], [openpitrix],
    [network], [multicluster], [servicemesh], [gateway]), the label-selector
    parser [labels.Parse] and [klog.InitFlags] are imported, so they enter
    the development as the fields of the class [External]. *)

From Stdlib Require Import ZArith List Ascii String Permutation Lia.
From stdpp Require Import base option list sorting strings gmap.

Import ListNotations.
Open Scope string_scope.
Open Scope list_scope.

Set Implicit Arguments.

(** ** The ten sub-option groups *)

(** One constructor per pointer field of the struct, in the order of the
    struct declaration. *)
Inductive Group : Type :=
  | Kubernetes
  | Devops
  | S3
  | Authentication
  | Ldap
  | OpenPitrix
  | Network
  | MultiCluster
  | ServiceMesh
  | Gateway.

Definition Group_eq_dec (g h : Group) : {g = h} + {g <> h}.
Proof. decide equality. Defined.

(** ** Durations *)

(** Go's [time.Duration] is a count of nanoseconds. *)
Definition Duration : Type := Z.

Definition Nanosecond : Duration := 1%Z.
Definition Microsecond : Duration := (1000 * Nanosecond)%Z.
Definition Millisecond : Duration := (1000 * Microsecond)%Z.
Definition Second : Duration := (1000 * Millisecond)%Z.

(** The three fields of [leaderelection.LeaderElectionConfig] that this
    file sets and binds; the others keep their zero value throughout. *)
Record LeaderElectionConfig : Type := {
  LeaseDuration : Duration;
  RenewDeadline : Duration;
  RetryPeriod : Duration
}.

(** ** Library calls made by [Flags] *)

(** *** [strings.Replace] *)

(** The scan behind [strings.Replace] for a non-empty [old]: [skip] bytes
    of a match just replaced are still to be dropped, and [n] replacements
    are left (a negative [n] never runs out). *)
Fixpoint replace_scan (old new s : string) (skip : nat) (n : Z) : string :=
  match s with
  | EmptyString => EmptyString
  | String c rest =>
      match skip with
      | S k => replace_scan old new rest k n
      | O =>
          if negb (n =? 0)%Z && String.prefix old s then
            new +:+ replace_scan old new rest (String.length old - 1) (n - 1)
          else String c (replace_scan old new rest 0 n)
      end
  end.

(** The empty [old] matches before every byte and at the end.  (Go counts
    UTF-8 sequences there, which is the same on ASCII text.) *)
Fixpoint replace_empty (new s : string) (n : Z) : string :=
  if (n =? 0)%Z then s
  else
    match s with
    | EmptyString => new
    | String c rest => new +:+ String c (replace_empty new rest (n - 1))
    end.

Definition strings_Replace (s old new : string) (n : Z) : string :=
  if String.eqb old new || (n =? 0)%Z then s
  else
    match old with
    | EmptyString => replace_empty new s n
    | String _ _ => replace_scan old new s 0 n
    end.

(** *** Go's [flag] package *)

Section FlagLibraries.
(** the implementations of [flag.Value] *)
Variable V : Type.

(** [flag.Flag] *)
Record goFlag : Type := {
  go_Name : string;
  go_Usage : string;
  go_Value : V;
  go_DefValue : string
}.

(** [flag.FlagSet]: its name and the flags defined in it. *)
Record goFlagSet : Type := {
  go_name : string;
  go_formal : list goFlag
}.

(** [flag.NewFlagSet(name, flag.ExitOnError)] *)
Definition flag_NewFlagSet (name : string) : goFlagSet :=
  {| go_name := name; go_formal := [] |}.

Definition goFlag_le (a b : goFlag) : Prop :=
  String.leb (go_Name a) (go_Name b) = true.

#[global] Instance goFlag_le_dec : RelDecision goFlag_le.
Proof. intros a b. unfold goFlag_le. apply bool_eq_dec. Defined.

(** [flag.FlagSet.VisitAll] hands the flags to its callback in
    lexicographical order of their names. *)
Definition sortFlags (f : goFlagSet) : list goFlag :=
  merge_sort goFlag_le (go_formal f).

(** [fn] may stop the walk with a panic of its own ([None]). *)
Fixpoint visit {A : Type} (fn : goFlag -> A -> option A)
    (l : list goFlag) (a : A) : option A :=
  match l with
  | [] => Some a
  | fl :: l' => a' ← fn fl a; visit fn l' a'
  end.

Definition VisitAll {A : Type} (fn : goFlag -> A -> option A)
    (f : goFlagSet) : A -> option A :=
  visit fn (sortFlags f).

(** *** [pflag] *)

(** The variables a flag of this program can be bound to. *)
Inductive Pointer : Type :=
  | pLeaderElect          (* &s.LeaderElect *)
  | pWebhookCertDir       (* &s.WebhookCertDir *)
  | pApplicationSelector  (* &s.ApplicationSelector *)
  | pLeaseDuration        (* &l.LeaseDuration *)
  | pRenewDeadline        (* &l.RenewDeadline *)
  | pRetryPeriod          (* &l.RetryPeriod *)
  | pOptions (g : Group) (field : string).  (* inside a sub-option group *)

(** [pflag.Value] *)
Inductive Value : Type :=
  | boolValue (p : Pointer)
  | stringValue (p : Pointer)
  | durationValue (p : Pointer)
  | flagValueWrapper (inner : V)
  | otherValue (type : string) (p : Pointer).

(** The default a flag is registered with.  [pflag] keeps the text
    [Value.String()] gives at registration; the value is kept here. *)
Inductive Default : Type :=
  | DefBool (b : bool)
  | DefString (v : string)
  | DefDuration (d : Duration)
  | DefText (text : string).

(** [pflag.Flag], without the fields nothing here reads. *)
Record Flag : Type := {
  Name : string;
  Shorthand : string;
  Usage : string;
  flag_Value : Value;
  DefValue : Default
}.

(** [pflag.FlagSet]: its name and the flags in the order they were
    added. *)
Record FlagSet : Type := {
  name : string;
  formal : list Flag
}.

(** [pflag.NewFlagSet(name, pflag.ExitOnError)] *)
Definition pflag_NewFlagSet (n : string) : FlagSet :=
  {| name := n; formal := [] |}.

(** [FlagSet.Lookup] *)
Definition Lookup (n : string) (f : FlagSet) : option Flag :=
  List.find (fun x => String.eqb (Name x) n) (formal f).

Definition shorthand_used (c : ascii) (f : FlagSet) : bool :=
  existsb
    (fun x =>
       match String.get 0 (Shorthand x) with
       | Some d => Ascii.eqb d c
       | None => false
       end)
    (formal f).

(** [FlagSet.AddFlag]; [None] is its panic: a name defined twice, a
    shorthand of more than one character, or a shorthand in use. *)
Definition AddFlag (flag : Flag) (f : FlagSet) : option FlagSet :=
  match Lookup (Name flag) f with
  | Some _ => None
  | None =>
      let f' := {| name := name f; formal := formal f ++ [flag] |} in
      match String.get 0 (Shorthand flag) with
      | None => Some f'
      | Some c =>
          if (1 <? String.length (Shorthand flag))%nat then None
          else if shorthand_used c f then None
          else Some f'
      end
  end.

(** [FlagSet.VarPF] followed by nothing else: the flag is built and
    added. *)
Definition VarPF (value : Value) (def : Default) (n shorthand usage : string)
    (f : FlagSet) : option FlagSet :=
  AddFlag
    {| Name := n; Shorthand := shorthand; Usage := usage;
       flag_Value := value; DefValue := def |}
    f.

(** [FlagSet.BoolVar(p, name, value, usage)] *)
Definition BoolVar (p : Pointer) (n : string) (value : bool)
    (usage : string) : FlagSet -> option FlagSet :=
  VarPF (boolValue p) (DefBool value) n "" usage.

(** [FlagSet.StringVar(p, name, value, usage)] *)
Definition StringVar (p : Pointer) (n : string) (value : string)
    (usage : string) : FlagSet -> option FlagSet :=
  VarPF (stringValue p) (DefString value) n "" usage.

(** [FlagSet.DurationVar(p, name, value, usage)] *)
Definition DurationVar (p : Pointer) (n : string) (value : Duration)
    (usage : string) : FlagSet -> option FlagSet :=
  VarPF (durationValue p) (DefDuration value) n "" usage.

(** [pflag.PFlagFromGoFlag]: a one-letter name is its own shorthand. *)
Definition PFlagFromGoFlag (String_ : V -> string) (fl : goFlag) : Flag :=
  {| Name := go_Name fl;
     Shorthand :=
       if (String.length (go_Name fl) =? 1)%nat then go_Name fl else "";
     Usage := go_Usage fl;
     flag_Value := flagValueWrapper (go_Value fl);
     DefValue := DefText (String_ (go_Value fl)) |}.

(** [FlagSet.AddGoFlag]: a name already present is skipped. *)
Definition AddGoFlag (String_ : V -> string) (fl : goFlag) (f : FlagSet)
  : option FlagSet :=
  match Lookup (go_Name fl) f with
  | Some _ => Some f
  | None => AddFlag (PFlagFromGoFlag String_ fl) f
  end.

(** *** [cliflag.NamedFlagSets] *)

Record NamedFlagSets : Type := {
  Order : list string;
  FlagSets : gmap string FlagSet
}.

(** [NamedFlagSets.FlagSet(name)] returns the set of that name and
    makes it first when there is none.  The caller writes through the
    pointer it gets: [onFlagSet name body fss] is the call followed by
    the writes [body] makes to that set. *)
Definition onFlagSet (n : string) (body : FlagSet -> option FlagSet)
    (fss : NamedFlagSets) : option NamedFlagSets :=
  match FlagSets fss !! n with
  | Some fs =>
      fs' ← body fs;
      Some {| Order := Order fss; FlagSets := <[n := fs']> (FlagSets fss) |}
  | None =>
      fs' ← body (pflag_NewFlagSet n);
      Some {| Order := Order fss ++ [n];
              FlagSets := <[n := fs']> (FlagSets fss) |}
  end.

End FlagLibraries.

Arguments pLeaderElect : clear implicits.
Arguments boolValue {V} p.
Arguments stringValue {V} p.
Arguments durationValue {V} p.
Arguments otherValue {V} type p.

(** ** External collaborators *)

(** What the file imports.  A method with a pointer receiver may write to
    its receiver, so a group's [Validate] yields the reported errors
    together with the receiver as it leaves it. *)
Class External : Type := {
  (** the values of Go's [error] interface *)
  error : Type;
  (** [k8s.KubernetesOptions], [jenkins.Options], [s3.Options], ... *)
  Options : Group -> Type;
  (** [k8s.NewKubernetesOptions()], [jenkins.NewDevopsOptions()], ... *)
  NewOptions : forall g : Group, Options g;
  (** [(o *Options).Validate() []error] *)
  Options_Validate : forall g : Group, Options g -> list error * Options g;
  (** [labels.Selector] *)
  Selector : Type;
  (** [labels.Parse(selector string) (Selector, error)] *)
  labels_Parse : string -> Selector + error;
  (** the [flag.Value] implementations of [klog], with their [String()] *)
  klog_Value : Type;
  klog_Value_String : klog_Value -> string;
  (** [(o *Options).AddFlags(fs *pflag.FlagSet, c *Options)]: receiver,
      [c], and the flag set before and after *)
  Options_AddFlags :
    forall g : Group,
      Options g -> Options g -> FlagSet klog_Value -> FlagSet klog_Value;
  (** [klog.InitFlags(flagset *flag.FlagSet)] *)
  klog_InitFlags : goFlagSet klog_Value -> goFlagSet klog_Value
}.

(** ** The aggregate *)

Section Aggregate.
Context {E : External}.

(** Every pointer field is taken to point to a group value of its own,
    as the constructor leaves it; the field holds that value.  A nil
    field, which would hand a nil receiver to a method of an imported
    package, is outside the model. *)
Record KubeSphereControllerManagerOptions : Type := {
  KubernetesOptions : Options Kubernetes;
  DevopsOptions : Options Devops;
  S3Options : Options S3;
  AuthenticationOptions : Options Authentication;
  LdapOptions : Options Ldap;
  OpenPitrixOptions : Options OpenPitrix;
  NetworkOptions : Options Network;
  MultiClusterOptions : Options MultiCluster;
  ServiceMeshOptions : Options ServiceMesh;
  GatewayOptions : Options Gateway;
  LeaderElect : bool;
  LeaderElection : LeaderElectionConfig;
  WebhookCertDir : string;
  ApplicationSelector : string
}.

(** The group value behind the pointer field of group [g]. *)
Definition group (g : Group) (s : KubeSphereControllerManagerOptions)
  : Options g :=
  match g as g' return Options g' with
  | Kubernetes => KubernetesOptions s
  | Devops => DevopsOptions s
  | S3 => S3Options s
  | Authentication => AuthenticationOptions s
  | Ldap => LdapOptions s
  | OpenPitrix => OpenPitrixOptions s
  | Network => NetworkOptions s
  | MultiCluster => MultiClusterOptions s
  | ServiceMesh => ServiceMeshOptions s
  | Gateway => GatewayOptions s
  end.

(** A write through the pointer field of group [g]. *)
Definition set_group (g : Group)
  : Options g -> KubeSphereControllerManagerOptions ->
    KubeSphereControllerManagerOptions :=
  match g as g' return
    Options g' -> KubeSphereControllerManagerOptions ->
    KubeSphereControllerManagerOptions
  with
  | Kubernetes => fun o s =>
      {| KubernetesOptions := o; DevopsOptions := DevopsOptions s;
         S3Options := S3Options s;
         AuthenticationOptions := AuthenticationOptions s;
         LdapOptions := LdapOptions s;
         OpenPitrixOptions := OpenPitrixOptions s;
         NetworkOptions := NetworkOptions s;
         MultiClusterOptions := MultiClusterOptions s;
         ServiceMeshOptions := ServiceMeshOptions s;
         GatewayOptions := GatewayOptions s;
         LeaderElect := LeaderElect s; LeaderElection := LeaderElection s;
         WebhookCertDir := WebhookCertDir s;
         ApplicationSelector := ApplicationSelector s |}
  | Devops => fun o s =>
      {| KubernetesOptions := KubernetesOptions s; DevopsOptions := o;
         S3Options := S3Options s;
         AuthenticationOptions := AuthenticationOptions s;
         LdapOptions := LdapOptions s;
         OpenPitrixOptions := OpenPitrixOptions s;
         NetworkOptions := NetworkOptions s;
         MultiClusterOptions := MultiClusterOptions s;
         ServiceMeshOptions := ServiceMeshOptions s;
         GatewayOptions := GatewayOptions s;
         LeaderElect := LeaderElect s; LeaderElection := LeaderElection s;
         WebhookCertDir := WebhookCertDir s;
         ApplicationSelector := ApplicationSelector s |}
  | S3 => fun o s =>
      {| KubernetesOptions := KubernetesOptions s;
         DevopsOptions := DevopsOptions s; S3Options := o;
         AuthenticationOptions := AuthenticationOptions s;
         LdapOptions := LdapOptions s;
         OpenPitrixOptions := OpenPitrixOptions s;
         NetworkOptions := NetworkOptions s;
         MultiClusterOptions := MultiClusterOptions s;
         ServiceMeshOptions := ServiceMeshOptions s;
         GatewayOptions := GatewayOptions s;
         LeaderElect := LeaderElect s; LeaderElection := LeaderElection s;
         WebhookCertDir := WebhookCertDir s;
         ApplicationSelector := ApplicationSelector s |}
  | Authentication => fun o s =>
      {| KubernetesOptions := KubernetesOptions s;
         DevopsOptions := DevopsOptions s; S3Options := S3Options s;
         AuthenticationOptions := o;
         LdapOptions := LdapOptions s;
         OpenPitrixOptions := OpenPitrixOptions s;
         NetworkOptions := NetworkOptions s;
         MultiClusterOptions := MultiClusterOptions s;
         ServiceMeshOptions := ServiceMeshOptions s;
         GatewayOptions := GatewayOptions s;
         LeaderElect := LeaderElect s; LeaderElection := LeaderElection s;
         WebhookCertDir := WebhookCertDir s;
         ApplicationSelector := ApplicationSelector s |}
  | Ldap => fun o s =>
      {| KubernetesOptions := KubernetesOptions s;
         DevopsOptions := DevopsOptions s; S3Options := S3Options s;
         AuthenticationOptions := AuthenticationOptions s;
         LdapOptions := o;
         OpenPitrixOptions := OpenPitrixOptions s;
         NetworkOptions := NetworkOptions s;
         MultiClusterOptions := MultiClusterOptions s;
         ServiceMeshOptions := ServiceMeshOptions s;
         GatewayOptions := GatewayOptions s;
         LeaderElect := LeaderElect s; LeaderElection := LeaderElection s;
         WebhookCertDir := WebhookCertDir s;
         ApplicationSelector := ApplicationSelector s |}
  | OpenPitrix => fun o s =>
      {| KubernetesOptions := KubernetesOptions s;
         DevopsOptions := DevopsOptions s; S3Options := S3Options s;
         AuthenticationOptions := AuthenticationOptions s;
         LdapOptions := LdapOptions s;
         OpenPitrixOptions := o;
         NetworkOptions := NetworkOptions s;
         MultiClusterOptions := MultiClusterOptions s;
         ServiceMeshOptions := ServiceMeshOptions s;
         GatewayOptions := GatewayOptions s;
         LeaderElect := LeaderElect s; LeaderElection := LeaderElection s;
         WebhookCertDir := WebhookCertDir s;
         ApplicationSelector := ApplicationSelector s |}
  | Network => fun o s =>
      {| KubernetesOptions := KubernetesOptions s;
         DevopsOptions := DevopsOptions s; S3Options := S3Options s;
         AuthenticationOptions := AuthenticationOptions s;
         LdapOptions := LdapOptions s;
         OpenPitrixOptions := OpenPitrixOptions s;
         NetworkOptions := o;
         MultiClusterOptions := MultiClusterOptions s;
         ServiceMeshOptions := ServiceMeshOptions s;
         GatewayOptions := GatewayOptions s;
         LeaderElect := LeaderElect s; LeaderElection := LeaderElection s;
         WebhookCertDir := WebhookCertDir s;
         ApplicationSelector := ApplicationSelector s |}
  | MultiCluster => fun o s =>
      {| KubernetesOptions := KubernetesOptions s;
         DevopsOptions := DevopsOptions s; S3Options := S3Options s;
         AuthenticationOptions := AuthenticationOptions s;
         LdapOptions := LdapOptions s;
         OpenPitrixOptions := OpenPitrixOptions s;
         NetworkOptions := NetworkOptions s;
         MultiClusterOptions := o;
         ServiceMeshOptions := ServiceMeshOptions s;
         GatewayOptions := GatewayOptions s;
         LeaderElect := LeaderElect s; LeaderElection := LeaderElection s;
         WebhookCertDir := WebhookCertDir s;
         ApplicationSelector := ApplicationSelector s |}
  | ServiceMesh => fun o s =>
      {| KubernetesOptions := KubernetesOptions s;
         DevopsOptions := DevopsOptions s; S3Options := S3Options s;
         AuthenticationOptions := AuthenticationOptions s;
         LdapOptions := LdapOptions s;
         OpenPitrixOptions := OpenPitrixOptions s;
         NetworkOptions := NetworkOptions s;
         MultiClusterOptions := MultiClusterOptions s;
         ServiceMeshOptions := o;
         GatewayOptions := GatewayOptions s;
         LeaderElect := LeaderElect s; LeaderElection := LeaderElection s;
         WebhookCertDir := WebhookCertDir s;
         ApplicationSelector := ApplicationSelector s |}
  | Gateway => fun o s =>
      {| KubernetesOptions := KubernetesOptions s;
         DevopsOptions := DevopsOptions s; S3Options := S3Options s;
         AuthenticationOptions := AuthenticationOptions s;
         LdapOptions := LdapOptions s;
         OpenPitrixOptions := OpenPitrixOptions s;
         NetworkOptions := NetworkOptions s;
         MultiClusterOptions := MultiClusterOptions s;
         ServiceMeshOptions := ServiceMeshOptions s;
         GatewayOptions := o;
         LeaderElect := LeaderElect s; LeaderElection := LeaderElection s;
         WebhookCertDir := WebhookCertDir s;
         ApplicationSelector := ApplicationSelector s |}
  end.

(** *** [NewKubeSphereControllerManagerOptions] *)

Definition NewKubeSphereControllerManagerOptions
  : KubeSphereControllerManagerOptions :=
  {| KubernetesOptions := NewOptions Kubernetes;
     DevopsOptions := NewOptions Devops;
     S3Options := NewOptions S3;
     LdapOptions := NewOptions Ldap;
     OpenPitrixOptions := NewOptions OpenPitrix;
     NetworkOptions := NewOptions Network;
     MultiClusterOptions := NewOptions MultiCluster;
     ServiceMeshOptions := NewOptions ServiceMesh;
     AuthenticationOptions := NewOptions Authentication;
     GatewayOptions := NewOptions Gateway;
     LeaderElection :=
       {| LeaseDuration := (30 * Second)%Z;
          RenewDeadline := (15 * Second)%Z;
          RetryPeriod := (5 * Second)%Z |};
     LeaderElect := false;
     WebhookCertDir := "";
     ApplicationSelector := "" |}.

(** *** A monad for the calls [Validate] makes *)

(** The calls that leave the file. *)
Inductive Call : Type :=
  | CallValidate (g : Group)
  | CallParse (selector : string).

(** The receiver [s] with the group values behind it, and the calls made
    so far, oldest first. *)
Record World : Type := {
  conf : KubeSphereControllerManagerOptions;
  calls : list Call
}.

Definition M (A : Type) : Type := World -> A * World.

Definition ret {A : Type} (a : A) : M A := fun w => (a, w).

Definition bind {A B : Type} (m : M A) (k : A -> M B) : M B :=
  fun w => let (a, w') := m w in k a w'.

Definition gets {A : Type} (f : KubeSphereControllerManagerOptions -> A)
  : M A :=
  fun w => (f (conf w), w).

(** [s.<Group>Options.Validate()] *)
Definition validateGroup (g : Group) : M (list error) :=
  fun w =>
    let r := Options_Validate g (group g (conf w)) in
    (fst r,
     {| conf := set_group g (snd r) (conf w);
        calls := calls w ++ [CallValidate g] |}).

(** [labels.Parse(selector)]; a Go string is immutable, the call leaves
    the receiver alone. *)
Definition parseSelector (selector : string) : M (Selector + error) :=
  fun w =>
    (labels_Parse selector,
     {| conf := conf w; calls := calls w ++ [CallParse selector] |}).

End Aggregate.

Arguments KubeSphereControllerManagerOptions E : clear implicits.
Arguments World E : clear implicits.
Arguments M E A : clear implicits.

Notation "x <- m ;; k" := (bind m (fun x => k))
  (at level 20, m at level 99, k at level 200, only parsing).

Section Registration.
Context {E : External}.

(** *** [bindLeaderElectionFlags] *)

Definition bindLeaderElectionFlags (l : LeaderElectionConfig)
    (fs : FlagSet klog_Value) : option (FlagSet klog_Value) :=
  fs ← DurationVar pLeaseDuration "leader-elect-lease-duration"
         (LeaseDuration l)
         ("" +:+
          "The duration that non-leader candidates will wait after observing a leadership " +:+
          "renewal until attempting to acquire leadership of a led but unrenewed leader " +:+
          "slot. This is effectively the maximum duration that a leader can be stopped " +:+
          "before it is replaced by another candidate. This is only applicable if leader " +:+
          "election is enabled.")
         fs;
  fs ← DurationVar pRenewDeadline "leader-elect-renew-deadline"
         (RenewDeadline l)
         ("" +:+
          "The interval between attempts by the acting master to renew a leadership slot " +:+
          "before it stops leading. This must be less than or equal to the lease duration. " +:+
          "This is only applicable if leader election is enabled.")
         fs;
  DurationVar pRetryPeriod "leader-elect-retry-period"
    (RetryPeriod l)
    ("" +:+
     "The duration the clients should wait between attempting acquisition and renewal " +:+
     "of a leadership. This is only applicable if leader election is enabled.")
    fs.

(** *** [Flags] *)

(** [o.AddFlags(fs, c)] *)
Definition AddFlags (g : Group) (o c : Options g)
    (fs : FlagSet klog_Value) : option (FlagSet klog_Value) :=
  Some (Options_AddFlags g o c fs).

(** [fl.Name = strings.Replace(fl.Name, "_", "-", -1)] *)
Definition renamed (fl : goFlag klog_Value) : goFlag klog_Value :=
  {| go_Name := strings_Replace (go_Name fl) "_" "-" (-1);
     go_Usage := go_Usage fl;
     go_Value := go_Value fl;
     go_DefValue := go_DefValue fl |}.

(** The callback handed to [local.VisitAll]. *)
Definition addKlogFlag (fl : goFlag klog_Value) (kfs : FlagSet klog_Value)
  : option (FlagSet klog_Value) :=
  AddGoFlag klog_Value_String (renamed fl) kfs.

Definition Flags (s : KubeSphereControllerManagerOptions E)
  : option (NamedFlagSets klog_Value) :=
  let fss := {| Order := []; FlagSets := ∅ |} in
  fss ← onFlagSet "kubernetes"
          (AddFlags Kubernetes (KubernetesOptions s) (KubernetesOptions s))
          fss;
  fss ← onFlagSet "devops"
          (AddFlags Devops (DevopsOptions s) (DevopsOptions s)) fss;
  fss ← onFlagSet "s3" (AddFlags S3 (S3Options s) (S3Options s)) fss;
  fss ← onFlagSet "authentication"
          (AddFlags Authentication (AuthenticationOptions s)
             (AuthenticationOptions s))
          fss;
  fss ← onFlagSet "ldap" (AddFlags Ldap (LdapOptions s) (LdapOptions s)) fss;
  fss ← onFlagSet "openpitrix"
          (AddFlags OpenPitrix (OpenPitrixOptions s) (OpenPitrixOptions s))
          fss;
  fss ← onFlagSet "network"
          (AddFlags Network (NetworkOptions s) (NetworkOptions s)) fss;
  fss ← onFlagSet "multicluster"
          (AddFlags MultiCluster (MultiClusterOptions s)
             (MultiClusterOptions s))
          fss;
  fss ← onFlagSet "servicemesh"
          (AddFlags ServiceMesh (ServiceMeshOptions s)
             (ServiceMeshOptions s))
          fss;
  fss ← onFlagSet "gateway"
          (AddFlags Gateway (GatewayOptions s) (GatewayOptions s)) fss;
  fss ← onFlagSet "leaderelection"
          (fun fs =>
             fs ← bindLeaderElectionFlags (LeaderElection s) fs;
             fs ← BoolVar pLeaderElect "leader-elect" (LeaderElect s)
                    ("" +:+
                     "Whether to enable leader election. This field should be enabled when controller manager" +:+
                     "deployed with multiple replicas.")
                    fs;
             StringVar pWebhookCertDir "webhook-cert-dir" (WebhookCertDir s)
               ("" +:+
                "Certificate directory used to setup webhooks, need tls.crt and tls.key placed inside." +:+
                "if not set, webhook server would look up the server key and certificate in" +:+
                "{TempDir}/k8s-webhook-server/serving-certs")
               fs)
          fss;
  fss ← onFlagSet "generic"
          (StringVar pApplicationSelector "application-selector"
             (ApplicationSelector s)
             ("" +:+
              "Only reconcile application(sigs.k8s.io/application) objects match given selector, this could avoid conflicts with " +:+
              "other projects built on top of sig-application. Default behavior is to reconcile all of application objects."))
          fss;
  onFlagSet "klog"
    (fun kfs =>
       let local := klog_InitFlags (flag_NewFlagSet klog_Value "klog") in
       VisitAll addKlogFlag local kfs)
    fss.

End Registration.

Section Validation.
Context {E : External}.

(** *** [Validate] *)

Definition Validate : M E (list error) :=
  let errs := [] in
  r <- validateGroup Devops ;;
  let errs := errs ++ r in
  r <- validateGroup Kubernetes ;;
  let errs := errs ++ r in
  r <- validateGroup S3 ;;
  let errs := errs ++ r in
  r <- validateGroup OpenPitrix ;;
  let errs := errs ++ r in
  r <- validateGroup Network ;;
  let errs := errs ++ r in
  r <- validateGroup Ldap ;;
  let errs := errs ++ r in
  r <- validateGroup MultiCluster ;;
  let errs := errs ++ r in
  selector <- gets ApplicationSelector ;;
  if negb (String.length selector =? 0)%nat then
    parsed <- parseSelector selector ;;
    match parsed with
    | inr err => ret (errs ++ [err])
    | inl _ => ret errs
    end
  else ret errs.

End Validation.

(** ** What a run of [Validate] is made of *)

Section Observations.
Context {E : External}.

(** The errors the validation of group [g] reports on the group value
    that [s] holds. *)
Definition reports (g : Group) (s : KubeSphereControllerManagerOptions E)
  : list error :=
  fst (Options_Validate g (group g s)).

(** The group value as that validation leaves it. *)
Definition leaves (g : Group) (s : KubeSphereControllerManagerOptions E)
  : Options g :=
  snd (Options_Validate g (group g s)).

(** The groups whose [Validate] is called, in the order of the calls. *)
Definition validated : list Group :=
  [Devops; Kubernetes; S3; OpenPitrix; Network; Ldap; MultiCluster].

(** What the validated groups report, in the order of the calls. *)
Definition groupErrors (s : KubeSphereControllerManagerOptions E)
  : list error :=
  flat_map (fun g => reports g s) validated.

(** The receiver once every validated group has been left by its
    validation. *)
Definition afterValidation (s : KubeSphereControllerManagerOptions E)
  : KubeSphereControllerManagerOptions E :=
  fold_left (fun s' g => set_group g (leaves g s') s') validated s.

(** What the selector check adds to the errors and to the calls. *)
Definition selectorErrors (selector : string) : list error :=
  if negb (String.length selector =? 0)%nat then
    match labels_Parse selector with
    | inr err => [err]
    | inl _ => []
    end
  else [].

Definition selectorCalls (selector : string) : list Call :=
  if negb (String.length selector =? 0)%nat then [CallParse selector]
  else [].

(** The calls a run of [Validate] adds to the log of [w]. *)
Definition newCalls (w : World E) : list Call :=
  skipn (length (calls w)) (calls (snd (Validate w))).

(** The name under which [Flags] asks for the flag set of group [g]. *)
Definition flagSetName (g : Group) : string :=
  match g with
  | Kubernetes => "kubernetes"
  | Devops => "devops"
  | S3 => "s3"
  | Authentication => "authentication"
  | Ldap => "ldap"
  | OpenPitrix => "openpitrix"
  | Network => "network"
  | MultiCluster => "multicluster"
  | ServiceMesh => "servicemesh"
  | Gateway => "gateway"
  end.

(** The flag set [Flags] hands to the [AddFlags] of group [g], as that
    call leaves it: the group is both the receiver and the source of the
    defaults. *)
Definition groupFlagSet (g : Group) (s : KubeSphereControllerManagerOptions E)
  : FlagSet klog_Value :=
  Options_AddFlags g (group g s) (group g s)
    (pflag_NewFlagSet klog_Value (flagSetName g)).

(** The flags of a set: name, variable and default, in the order they
    were added. *)
Definition registered (fs : FlagSet klog_Value)
  : list (string * Value klog_Value * Default) :=
  map (fun f => (Name f, flag_Value f, DefValue f)) (formal fs).

(** The flags [klog.InitFlags] defines in the set [Flags] hands it. *)
Definition klogFlags : list (goFlag klog_Value) :=
  go_formal (klog_InitFlags (flag_NewFlagSet klog_Value "klog")).

(** Every shorthand in the set is the one-letter name of its flag, which
    is what [PFlagFromGoFlag] produces. *)
Definition shorthand_ok (fs : FlagSet klog_Value) : Prop :=
  forall f,
    In f (formal fs) ->
    Shorthand f = "" \/
    (Shorthand f = Name f /\ String.length (Name f) = 1).

(** A character of a logging flag's name as it is registered. *)
Definition hyphenated (c : ascii) : ascii :=
  if Ascii.eqb c "_" then "-"%char else c.

End Observations.

(** ** A concrete set of collaborators *)

(** Sub-option groups that carry the errors their validation reports, a
    selector parser that rejects the text [==] only, and a logging library
    with four flags.  The properties below are evaluated on it. *)
Module Sample.

Definition klogFlag (n def : string) : goFlag string :=
  {| go_Name := n; go_Usage := "usage of " +:+ n; go_Value := def;
     go_DefValue := def |}.

Definition ext : External :=
  {| error := string;
     Options := fun _ => list string;
     NewOptions := fun _ => [];
     Options_Validate := fun _ o => (o, o);
     Selector := string;
     labels_Parse := fun selector =>
       if String.eqb selector "==" then inr "unable to parse requirement"
       else inl selector;
     klog_Value := string;
     klog_Value_String := fun v => v;
     Options_AddFlags := fun g o c fs =>
       {| name := name fs;
          formal :=
            formal fs ++
            [ {| Name := "enabled"; Shorthand := ""; Usage := "";
                 flag_Value := boolValue (pOptions g "Enabled");
                 DefValue := DefBool (Nat.eqb (length c) 0) |} ] |};
     klog_InitFlags := fun f =>
       {| go_name := go_name f;
          go_formal :=
            go_formal f ++
            [ klogFlag "log_dir" ""; klogFlag "v" "0";
              klogFlag "log_file_max_size" "1800";
              klogFlag "logtostderr" "true" ] |} |}.

(** A value of group [g] whose validation reports [errs]. *)
Definition reporting (g : Group) (errs : list string) : @Options ext g :=
  errs.

(** The configuration the constructor returns. *)
Definition fresh : KubeSphereControllerManagerOptions ext :=
  NewKubeSphereControllerManagerOptions.

(** Every group reports one error of its own and the selector does not
    parse. *)
Definition broken : KubeSphereControllerManagerOptions ext :=
  {| KubernetesOptions := reporting Kubernetes ["kubernetes"];
     DevopsOptions := reporting Devops ["devops"];
     S3Options := reporting S3 ["s3"];
     AuthenticationOptions := reporting Authentication ["authentication"];
     LdapOptions := reporting Ldap ["ldap"];
     OpenPitrixOptions := reporting OpenPitrix ["openpitrix"];
     NetworkOptions := reporting Network ["network"];
     MultiClusterOptions := reporting MultiCluster ["multicluster"];
     ServiceMeshOptions := reporting ServiceMesh ["servicemesh"];
     GatewayOptions := reporting Gateway ["gateway"];
     LeaderElect := true;
     LeaderElection :=
       {| LeaseDuration := (1 * Second)%Z;
          RenewDeadline := (2 * Second)%Z;
          RetryPeriod := (3 * Second)%Z |};
     WebhookCertDir := "/tmp/certs";
     ApplicationSelector := "==" |}.

(** Only the three groups that [Validate] does not reach report. *)
Definition unreached : KubeSphereControllerManagerOptions ext :=
  {| KubernetesOptions := reporting Kubernetes [];
     DevopsOptions := reporting Devops [];
     S3Options := reporting S3 [];
     AuthenticationOptions := reporting Authentication ["authentication options are invalid"];
     LdapOptions := reporting Ldap [];
     OpenPitrixOptions := reporting OpenPitrix [];
     NetworkOptions := reporting Network [];
     MultiClusterOptions := reporting MultiCluster [];
     ServiceMeshOptions := reporting ServiceMesh ["servicemesh options are invalid"];
     GatewayOptions := reporting Gateway ["gateway options are invalid"];
     LeaderElect := false;
     LeaderElection :=
       {| LeaseDuration := (30 * Second)%Z;
          RenewDeadline := (15 * Second)%Z;
          RetryPeriod := (5 * Second)%Z |};
     WebhookCertDir := "";
     ApplicationSelector := "kubesphere.io/creator=" |}.

(** [broken] with the leader-election fields and the webhook directory
    of the constructor. *)
Definition broken_elsewhere : KubeSphereControllerManagerOptions ext :=
  {| KubernetesOptions := KubernetesOptions broken;
     DevopsOptions := DevopsOptions broken;
     S3Options := S3Options broken;
     AuthenticationOptions := AuthenticationOptions broken;
     LdapOptions := LdapOptions broken;
     OpenPitrixOptions := OpenPitrixOptions broken;
     NetworkOptions := NetworkOptions broken;
     MultiClusterOptions := MultiClusterOptions broken;
     ServiceMeshOptions := ServiceMeshOptions broken;
     GatewayOptions := GatewayOptions broken;
     LeaderElect := false;
     LeaderElection :=
       {| LeaseDuration := (30 * Second)%Z;
          RenewDeadline := (15 * Second)%Z;
          RetryPeriod := (5 * Second)%Z |};
     WebhookCertDir := "";
     ApplicationSelector := ApplicationSelector broken |}.

Definition start (s : KubeSphereControllerManagerOptions ext) : World ext :=
  {| conf := s; calls := [] |}.

(** The same collaborators, except that a group's validation forgets the
    errors it has reported: it writes to its receiver. *)
Definition forgetful : External :=
  {| error := string;
     Options := fun _ => list string;
     NewOptions := fun _ => [];
     Options_Validate := fun _ o => (o, []);
     Selector := string;
     labels_Parse := @labels_Parse ext;
     klog_Value := string;
     klog_Value_String := fun v => v;
     Options_AddFlags := @Options_AddFlags ext;
     klog_InitFlags := @klog_InitFlags ext |}.

(** A value of group [g] that holds [errs] until it is validated. *)
Definition holding (g : Group) (errs : list string) : @Options forgetful g :=
  errs.

(** One error in the DevOps group, nothing else. *)
Definition devops_only : KubeSphereControllerManagerOptions forgetful :=
  {| KubernetesOptions := holding Kubernetes [];
     DevopsOptions := holding Devops ["devops"];
     S3Options := holding S3 [];
     AuthenticationOptions := holding Authentication [];
     LdapOptions := holding Ldap [];
     OpenPitrixOptions := holding OpenPitrix [];
     NetworkOptions := holding Network [];
     MultiClusterOptions := holding MultiCluster [];
     ServiceMeshOptions := holding ServiceMesh [];
     GatewayOptions := holding Gateway [];
     LeaderElect := false;
     LeaderElection :=
       {| LeaseDuration := (30 * Second)%Z;
          RenewDeadline := (15 * Second)%Z;
          RetryPeriod := (5 * Second)%Z |};
     WebhookCertDir := "";
     ApplicationSelector := "" |}.

End Sample.

(** ** Properties *)

Unset Implicit Arguments.

Section Properties.
Context {E : External}.

Implicit Types (w : World E) (s : KubeSphereControllerManagerOptions E).

(** *** How [Validate] runs *)

(** One equation for the whole run: the errors, the receiver it leaves
    and the calls it makes. *)
Lemma Validate_run w :
  Validate w =
    (groupErrors (conf w) ++ selectorErrors (ApplicationSelector (conf w)),
     {| conf := afterValidation (conf w);
        calls :=
          calls w ++ map CallValidate validated ++
          selectorCalls (ApplicationSelector (conf w)) |}).
Proof.
  unfold Validate, bind, validateGroup, gets, parseSelector, ret.
  unfold groupErrors, afterValidation, selectorErrors, selectorCalls,
    reports, leaves.
  cbn.
  destruct (ApplicationSelector (conf w)) as [|c sel] eqn:Hsel; cbn.
  - rewrite !app_nil_r, <- !app_assoc. reflexivity.
  - destruct (labels_Parse (String c sel)) as [parsed|err]; cbn;
      rewrite ?app_nil_r, <- !app_assoc; reflexivity.
Qed.

Lemma skipn_length_app {A : Type} (l t : list A) :
  skipn (length l) (l ++ t) = t.
Proof. induction l as [|x l IH]; [reflexivity | exact IH]. Qed.

Lemma flat_map_agree {A B : Type} (f h : A -> list B) (l : list A) :
  (forall x, In x l -> f x = h x) -> flat_map f l = flat_map h l.
Proof.
  induction l as [|x l IH]; intros H; [reflexivity|].
  cbn. rewrite (H x (or_introl eq_refl)), IH; [reflexivity|].
  intros y Hy. apply H. right. exact Hy.
Qed.

Lemma newCalls_run w :
  newCalls w =
    map CallValidate validated ++
    selectorCalls (ApplicationSelector (conf w)).
Proof.
  unfold newCalls. rewrite Validate_run. cbn [snd calls].
  apply skipn_length_app.
Qed.

Lemma selectorErrors_empty : selectorErrors "" = [].
Proof. reflexivity. Qed.

Lemma selectorErrors_parsed selector parsed :
  labels_Parse selector = inl parsed -> selectorErrors selector = [].
Proof.
  intros H. unfold selectorErrors. rewrite H.
  destruct (negb _); reflexivity.
Qed.

Lemma selectorErrors_rejected selector err :
  selector <> "" -> labels_Parse selector = inr err ->
  selectorErrors selector = [err].
Proof.
  intros Hne H. unfold selectorErrors. rewrite H.
  destruct selector; [contradiction | reflexivity].
Qed.

Lemma reports_in_groupErrors g s e :
  In g validated -> In e (reports g s) -> In e (groupErrors s).
Proof.
  intros Hg He. unfold groupErrors. apply in_flat_map.
  exists g. split; assumption.
Qed.

(** The groups [Validate] writes to are the validated ones. *)
Lemma afterValidation_group g s :
  group g (afterValidation s) =
    if in_dec Group_eq_dec g validated then leaves g s else group g s.
Proof. destruct g; reflexivity. Qed.


(** The errors depend on the seven validated groups and on the selector
    text, on nothing else. *)
Lemma Validate_errors_depend w1 w2 :
  (forall g, In g validated -> group g (conf w1) = group g (conf w2)) ->
  ApplicationSelector (conf w1) = ApplicationSelector (conf w2) ->
  fst (Validate w1) = fst (Validate w2).
Proof.
  intros Hg Hsel. rewrite !Validate_run. cbn [fst]. rewrite Hsel.
  f_equal. unfold groupErrors.
  apply flat_map_agree. intros g Hin. unfold reports.
  rewrite (Hg g Hin). reflexivity.
Qed.

(** *** [NewKubeSphereControllerManagerOptions] *)

(** C3: the constructor takes no argument and is a value, so it cannot
    fail; each of the ten sub-option groups is what that group's own
    constructor returns, leader election is off, the lease duration is
    30 seconds, the renew deadline 15 seconds, the retry period 5
    seconds (a second being 1000000000 nanoseconds), and the webhook
    certificate directory and the application selector are empty. *)
Theorem NewKubeSphereControllerManagerOptions_defaults :
  (forall g, group g NewKubeSphereControllerManagerOptions = NewOptions g) /\
  LeaderElect NewKubeSphereControllerManagerOptions = false /\
  LeaseDuration (LeaderElection NewKubeSphereControllerManagerOptions)
    = (30 * Second)%Z /\
  RenewDeadline (LeaderElection NewKubeSphereControllerManagerOptions)
    = (15 * Second)%Z /\
  RetryPeriod (LeaderElection NewKubeSphereControllerManagerOptions)
    = (5 * Second)%Z /\
  Second = 1000000000%Z /\
  WebhookCertDir NewKubeSphereControllerManagerOptions = "" /\
  ApplicationSelector NewKubeSphereControllerManagerOptions = "".
Proof.
  split; [intros g; destruct g; reflexivity|].
  repeat split.
Qed.

(** C7: in the constructed configuration the retry period is strictly
    below the renew deadline, which is strictly below the lease
    duration: 5 seconds < 15 seconds < 30 seconds. *)
Theorem leader_election_defaults_ordered :
  let l := LeaderElection NewKubeSphereControllerManagerOptions in
  (RetryPeriod l < RenewDeadline l < LeaseDuration l)%Z /\
  RetryPeriod l = (5 * 1000000000)%Z /\
  RenewDeadline l = (15 * 1000000000)%Z /\
  LeaseDuration l = (30 * 1000000000)%Z.
Proof. cbn. unfold Second, Millisecond, Microsecond, Nanosecond. lia. Qed.

(** *** [Validate] *)

(** C1 (as amended): [Validate] calls the validation of each of the
    seven groups DevOps, Kubernetes, S3, OpenPitrix, network, LDAP and
    multi-cluster, and every error one of these seven reports is in the
    list it returns. *)
Theorem Validate_collects_validated_groups w g :
  In g [Devops; Kubernetes; S3; OpenPitrix; Network; Ldap; MultiCluster] ->
  In (CallValidate g) (newCalls w) /\
  forall e, In e (reports g (conf w)) -> In e (fst (Validate w)).
Proof.
  intros Hg. split.
  - rewrite newCalls_run. apply in_or_app. left.
    apply in_map. exact Hg.
  - intros e He. rewrite Validate_run. cbn [fst].
    apply in_or_app. left.
    apply reports_in_groupErrors with (g := g); assumption.
Qed.

(** C2: the errors are those of the groups followed by the selector's
    part.  That part is non-empty exactly when the application selector
    is non-empty and [labels.Parse] rejects it, and it is then that one
    parse error; with the empty selector it is empty and the run makes
    no call of [labels.Parse], whatever the groups hold. *)
Theorem Validate_selector_error w :
  exists selector_errors,
    fst (Validate w) = groupErrors (conf w) ++ selector_errors /\
    (selector_errors <> [] <->
       ApplicationSelector (conf w) <> "" /\
       exists err, labels_Parse (ApplicationSelector (conf w)) = inr err) /\
    (forall err,
       ApplicationSelector (conf w) <> "" ->
       labels_Parse (ApplicationSelector (conf w)) = inr err ->
       selector_errors = [err]) /\
    (ApplicationSelector (conf w) = "" ->
       selector_errors = [] /\
       forall selector, ~ In (CallParse selector) (newCalls w)).
Proof.
  exists (selectorErrors (ApplicationSelector (conf w))).
  split; [rewrite Validate_run; reflexivity|].
  split; [|split].
  - split.
    + intros Hne.
      destruct (ApplicationSelector (conf w)) as [|c sel] eqn:Hsel;
        [rewrite selectorErrors_empty in Hne; congruence|].
      split; [discriminate|].
      destruct (labels_Parse (String c sel)) as [parsed|err] eqn:Hp.
      * rewrite (selectorErrors_parsed _ _ Hp) in Hne. congruence.
      * exists err. reflexivity.
    + intros [Hne [err Hp]].
      rewrite (selectorErrors_rejected _ _ Hne Hp). discriminate.
  - intros err Hne Hp. exact (selectorErrors_rejected _ _ Hne Hp).
  - intros Hsel. rewrite newCalls_run, Hsel. split; [reflexivity|].
    intros selector Hin. cbn in Hin.
    repeat (destruct Hin as [Hin|Hin]; [discriminate Hin|]).
    exact Hin.
Qed.

(** C4: if each validated group reports no error on the value its own
    constructor returns, [Validate] on the constructed configuration
    returns the empty list. *)
Theorem Validate_constructed_is_clean (t : list Call) :
  (forall g,
     In g [Devops; Kubernetes; S3; OpenPitrix; Network; Ldap; MultiCluster] ->
     fst (Options_Validate g (NewOptions g)) = []) ->
  fst (Validate {| conf := NewKubeSphereControllerManagerOptions;
                   calls := t |}) = [].
Proof.
  intros H. rewrite Validate_run. cbn [fst conf].
  unfold groupErrors, validated, reports. cbn.
  rewrite !H; cbn; tauto.
Qed.

(** C5: when the validation of each of the seven validated groups leaves
    its receiver as it found it, a second call of [Validate], made on
    what the first call left, returns the same list of errors as the
    first. *)
Theorem Validate_idempotent w :
  (forall g,
     In g [Devops; Kubernetes; S3; OpenPitrix; Network; Ldap; MultiCluster] ->
     snd (Options_Validate g (group g (conf w))) = group g (conf w)) ->
  fst (Validate (snd (Validate w))) = fst (Validate w).
Proof.
  intros Hpure. apply Validate_errors_depend.
  - intros g Hg. rewrite Validate_run. cbn [snd conf].
    rewrite afterValidation_group.
    destruct (in_dec Group_eq_dec g validated) as [Hin|Hout];
      [exact (Hpure g Hin) | contradiction].
  - rewrite Validate_run. reflexivity.
Qed.


(** C9: two configurations that agree on the ten groups and on the
    application selector, and so differ at most in [LeaderElect], the
    three leader-election durations and [WebhookCertDir], get the same
    list of errors: no relation among the durations is checked. *)
Theorem Validate_ignores_leader_election w1 w2 :
  (forall g, group g (conf w1) = group g (conf w2)) ->
  ApplicationSelector (conf w1) = ApplicationSelector (conf w2) ->
  fst (Validate w1) = fst (Validate w2).
Proof.
  intros Hg Hsel. apply Validate_errors_depend; [|exact Hsel].
  intros g _. apply Hg.
Qed.

(** C10: the returned list is the errors of DevOps, then Kubernetes,
    then S3, then OpenPitrix, then network, then LDAP, then
    multi-cluster, and last the parse error of the application selector
    when there is one. *)
Theorem Validate_error_order w :
  exists tail,
    fst (Validate w) =
      reports Devops (conf w) ++ reports Kubernetes (conf w) ++
      reports S3 (conf w) ++ reports OpenPitrix (conf w) ++
      reports Network (conf w) ++ reports Ldap (conf w) ++
      reports MultiCluster (conf w) ++ tail /\
    (tail = [] \/
     exists err,
       labels_Parse (ApplicationSelector (conf w)) = inr err /\
       tail = [err]).
Proof.
  exists (selectorErrors (ApplicationSelector (conf w))). split.
  - rewrite Validate_run. cbn [fst]. unfold groupErrors, validated.
    cbn [flat_map]. rewrite app_nil_r, <- !app_assoc. reflexivity.
  - unfold selectorErrors. destruct (negb _); [|left; reflexivity].
    destruct (labels_Parse _) as [parsed|err];
      [left; reflexivity | right; exists err; split; reflexivity].
Qed.

(** *** [strings.Replace] of the underscore *)

Lemma replace_scan_underscore (s : string) (n : Z) :
  (n < 0)%Z ->
  list_ascii_of_string (replace_scan "_" "-" s 0 n) =
    map hyphenated (list_ascii_of_string s).
Proof.
  revert n. induction s as [|c rest IH]; intros n Hn; [reflexivity|].
  cbn [replace_scan].
  assert (Hz : (n =? 0)%Z = false) by (apply Z.eqb_neq; lia).
  rewrite Hz. cbn [negb andb String.prefix String.length Nat.sub].
  unfold hyphenated at 1. cbn [list_ascii_of_string map].
  assert (Hpre : String.prefix "" rest = true) by (destruct rest; reflexivity).
  destruct (ascii_dec "_" c) as [Heq|Hne].
  - subst c. rewrite Hpre.
    change ("-" +:+ replace_scan "_" "-" rest 0 (n - 1))
      with (String "-" (replace_scan "_" "-" rest 0 (n - 1))).
    cbn [list_ascii_of_string]. rewrite IH by lia. reflexivity.
  - destruct (Ascii.eqb c "_") eqn:Hc.
    + apply Ascii.eqb_eq in Hc. congruence.
    + cbn [list_ascii_of_string]. rewrite IH by lia. reflexivity.
Qed.

Lemma strings_Replace_underscore (s : string) :
  list_ascii_of_string (strings_Replace s "_" "-" (-1)) =
    map hyphenated (list_ascii_of_string s).
Proof.
  unfold strings_Replace. cbn. apply replace_scan_underscore. lia.
Qed.

Lemma hyphenated_no_underscore (l : list ascii) :
  ~ In "_"%char (map hyphenated l).
Proof.
  intros H. apply in_map_iff in H. destruct H as [c [Hc _]].
  unfold hyphenated in Hc. destruct (Ascii.eqb c "_") eqn:Heq.
  - discriminate Hc.
  - apply Ascii.eqb_neq in Heq. congruence.
Qed.

(** *** The flag sets *)

Lemma Lookup_Some (n : string) (fs : FlagSet klog_Value) f :
  Lookup n fs = Some f -> In f (formal fs) /\ Name f = n.
Proof.
  unfold Lookup. intros H. apply find_some in H. destruct H as [Hin Heq].
  split; [exact Hin | apply String.eqb_eq; exact Heq].
Qed.

Lemma Lookup_None (n : string) (fs : FlagSet klog_Value) f :
  Lookup n fs = None -> In f (formal fs) -> Name f <> n.
Proof.
  unfold Lookup. intros H Hin Heq.
  pose proof (find_none _ _ H f Hin) as Hf. cbn in Hf.
  apply String.eqb_neq in Hf. contradiction.
Qed.

Lemma length_one (x : string) :
  String.length x = 1 -> exists c, x = String c EmptyString.
Proof.
  destruct x as [|c [|d x]]; cbn; intros H; try discriminate.
  exists c. reflexivity.
Qed.

Lemma shorthand_free (c : ascii) (fs : FlagSet klog_Value) :
  shorthand_ok fs ->
  Lookup (String c EmptyString) fs = None ->
  shorthand_used c fs = false.
Proof.
  intros Hok Hnone. unfold shorthand_used.
  destruct (existsb _ (formal fs)) eqn:Hex; [|reflexivity].
  apply existsb_exists in Hex. destruct Hex as [x [Hin Hx]].
  destruct (String.get 0 (Shorthand x)) as [d|] eqn:Hget; [|discriminate].
  apply Ascii.eqb_eq in Hx. subst d.
  destruct (Hok x Hin) as [Hempty | [Hname Hlen]].
  - rewrite Hempty in Hget. discriminate.
  - destruct (length_one _ Hlen) as [d Hd].
    rewrite Hname, Hd in Hget. cbn in Hget. injection Hget as ->.
    exfalso. exact (Lookup_None _ _ _ Hnone Hin Hd).
Qed.

(** [AddGoFlag] never panics on a set filled by [AddGoFlag]. *)
Lemma AddGoFlag_total (fl : goFlag klog_Value) (fs : FlagSet klog_Value) :
  shorthand_ok fs ->
  exists fs',
    AddGoFlag klog_Value_String fl fs = Some fs' /\
    shorthand_ok fs' /\
    name fs' = name fs /\
    (formal fs' = formal fs \/
     formal fs' = formal fs ++ [PFlagFromGoFlag klog_Value_String fl]) /\
    exists f, In f (formal fs') /\ Name f = go_Name fl.
Proof.
  intros Hok. unfold AddGoFlag.
  destruct (Lookup (go_Name fl) fs) as [f|] eqn:Hlook.
  - exists fs. destruct (Lookup_Some _ _ _ Hlook) as [Hin Hname].
    repeat split; try assumption; [left; reflexivity | exists f; auto].
  - assert (Hnew :
      shorthand_ok
        {| name := name fs;
           formal := formal fs ++ [PFlagFromGoFlag klog_Value_String fl] |}).
    { intros f Hin. cbn in Hin. apply in_app_or in Hin.
      destruct Hin as [Hin | [<- | []]]; [exact (Hok f Hin)|].
      cbn. destruct (String.length (go_Name fl) =? 1)%nat eqn:Hlen.
      - right. split; [reflexivity | apply Nat.eqb_eq; exact Hlen].
      - left. reflexivity. }
    exists {| name := name fs;
              formal := formal fs ++ [PFlagFromGoFlag klog_Value_String fl] |}.
    split.
    + unfold AddFlag. cbn [Name PFlagFromGoFlag Shorthand]. rewrite Hlook.
      destruct (String.length (go_Name fl) =? 1)%nat eqn:Hlen;
        [|reflexivity].
      apply Nat.eqb_eq in Hlen. destruct (length_one _ Hlen) as [c Hc].
      rewrite Hc in *. cbn.
      rewrite (shorthand_free _ _ Hok Hlook). reflexivity.
    + repeat split; try assumption; [right; reflexivity|].
      exists (PFlagFromGoFlag klog_Value_String fl). split; [|reflexivity].
      cbn. apply in_or_app. right. left. reflexivity.
Qed.

(** The walk over the logging flags: it ends without a panic, keeps what
    the set held, adds only renamed logging flags, and leaves every
    logging flag present under its new name. *)
Lemma visit_addKlogFlag (l : list (goFlag klog_Value)) :
  forall fs : FlagSet klog_Value,
    shorthand_ok fs ->
    exists fs',
      visit addKlogFlag l fs = Some fs' /\
      shorthand_ok fs' /\
      name fs' = name fs /\
      (forall f, In f (formal fs) -> In f (formal fs')) /\
      (forall f,
         In f (formal fs') ->
         In f (formal fs) \/
         exists gf,
           In gf l /\ f = PFlagFromGoFlag klog_Value_String (renamed gf)) /\
      (forall gf,
         In gf l ->
         exists f, In f (formal fs') /\ Name f = go_Name (renamed gf)).
Proof.
  induction l as [|fl l IH]; intros fs Hok.
  - exists fs. cbn. repeat split; auto. intros gf [].
  - destruct (AddGoFlag_total (renamed fl) fs Hok)
      as [fs1 [Hadd [Hok1 [Hname1 [Hformal [f0 [Hin0 Hf0]]]]]]].
    destruct (IH fs1 Hok1) as [fs' [Hrun [Hok' [Hname' [Hkeep [Hnew Hall]]]]]].
    assert (Hkeep1 : forall f, In f (formal fs) -> In f (formal fs1)).
    { intros f Hin. destruct Hformal as [-> | ->];
        [exact Hin | apply in_or_app; left; exact Hin]. }
    exists fs'. split; [|split; [|split; [|split; [|split]]]].
    + cbn [visit].
      change (addKlogFlag fl fs)
        with (AddGoFlag klog_Value_String (renamed fl) fs).
      rewrite Hadd. cbn. exact Hrun.
    + exact Hok'.
    + congruence.
    + intros f Hin. apply Hkeep, Hkeep1, Hin.
    + intros f Hin. destruct (Hnew f Hin) as [Hin1 | [gf [Hgf Heq]]].
      * destruct Hformal as [Hf | Hf]; rewrite Hf in Hin1.
        -- left. exact Hin1.
        -- apply in_app_or in Hin1. destruct Hin1 as [Hin1 | [<- | []]].
           ++ left. exact Hin1.
           ++ right. exists fl. split; [left; reflexivity | reflexivity].
      * right. exists gf. split; [right; exact Hgf | exact Heq].
    + intros gf [<- | Hgf].
      * exists f0. split; [apply Hkeep; exact Hin0 | exact Hf0].
      * apply Hall. exact Hgf.
Qed.

Lemma sortFlags_In (f : goFlagSet klog_Value) (gf : goFlag klog_Value) :
  In gf (sortFlags f) <-> In gf (go_formal f).
Proof.
  unfold sortFlags.
  pose proof (merge_sort_Permutation (@goFlag_le klog_Value) (go_formal f))
    as Hperm.
  split; intros H.
  - exact (Permutation_in _ Hperm H).
  - exact (Permutation_in _ (Permutation_sym Hperm) H).
Qed.

Lemma onFlagSet_fresh (n : string)
    (body : FlagSet klog_Value -> option (FlagSet klog_Value))
    (fss : NamedFlagSets klog_Value) (fs' : FlagSet klog_Value) :
  FlagSets fss !! n = None ->
  body (pflag_NewFlagSet klog_Value n) = Some fs' ->
  onFlagSet n body fss =
    Some {| Order := Order fss ++ [n];
            FlagSets := <[n := fs']> (FlagSets fss) |}.
Proof.
  intros Hnone Hbody. unfold onFlagSet. rewrite Hnone. cbn.
  rewrite Hbody. reflexivity.
Qed.

(** The logging flag set [Flags] builds. *)
Lemma klog_flag_set :
  exists kfs : FlagSet klog_Value,
    VisitAll addKlogFlag (klog_InitFlags (flag_NewFlagSet klog_Value "klog"))
      (pflag_NewFlagSet klog_Value "klog") = Some kfs /\
    (forall f,
       In f (formal kfs) ->
       exists gf,
         In gf klogFlags /\
         f = PFlagFromGoFlag klog_Value_String (renamed gf)) /\
    (forall gf,
       In gf klogFlags ->
       exists f, In f (formal kfs) /\ Name f = go_Name (renamed gf)).
Proof.
  unfold VisitAll.
  destruct (visit_addKlogFlag
              (sortFlags (klog_InitFlags (flag_NewFlagSet klog_Value "klog")))
              (pflag_NewFlagSet klog_Value "klog"))
    as [kfs [Hrun [_ [_ [_ [Hnew Hall]]]]]].
  { intros f []. }
  exists kfs. split; [exact Hrun|]. split.
  - intros f Hin. destruct (Hnew f Hin) as [[] | [gf [Hgf Heq]]].
    exists gf. split; [apply sortFlags_In; exact Hgf | exact Heq].
  - intros gf Hgf. apply Hall. apply sortFlags_In. exact Hgf.
Qed.

Lemma FlagSets_other (m : gmap string (FlagSet klog_Value))
    (i j : string) (fs : FlagSet klog_Value) :
  i <> j -> <[i := fs]> m !! j = m !! j.
Proof. apply lookup_insert_ne. Qed.

Lemma FlagSets_here (m : gmap string (FlagSet klog_Value))
    (i : string) (fs : FlagSet klog_Value) :
  <[i := fs]> m !! i = Some fs.
Proof. apply lookup_insert_eq. Qed.

Lemma FlagSets_none (i : string) :
  (∅ : gmap string (FlagSet klog_Value)) !! i = None.
Proof. apply lookup_empty. Qed.

Ltac find_flag_set :=
  repeat (rewrite FlagSets_other by discriminate);
  first [ apply FlagSets_here | apply FlagSets_none ].

Ltac next_flag_set :=
  erewrite onFlagSet_fresh;
  [ | cbn [FlagSets]; find_flag_set | reflexivity ];
  cbn [mbind option_bind Order FlagSets app].

(** One equation for [Flags]: the thirteen flag sets in the order they are
    asked for. *)
Lemma Flags_run (s : KubeSphereControllerManagerOptions E) :
  exists le ge kfs : FlagSet klog_Value,
    Flags s =
      Some
        {| Order :=
             ["kubernetes"; "devops"; "s3"; "authentication"; "ldap";
              "openpitrix"; "network"; "multicluster"; "servicemesh";
              "gateway"; "leaderelection"; "generic"; "klog"];
           FlagSets :=
             <["klog" := kfs]>
             (<["generic" := ge]>
             (<["leaderelection" := le]>
             (<["gateway" := groupFlagSet Gateway s]>
             (<["servicemesh" := groupFlagSet ServiceMesh s]>
             (<["multicluster" := groupFlagSet MultiCluster s]>
             (<["network" := groupFlagSet Network s]>
             (<["openpitrix" := groupFlagSet OpenPitrix s]>
             (<["ldap" := groupFlagSet Ldap s]>
             (<["authentication" := groupFlagSet Authentication s]>
             (<["s3" := groupFlagSet S3 s]>
             (<["devops" := groupFlagSet Devops s]>
             (<["kubernetes" := groupFlagSet Kubernetes s]> ∅))))))))))))
        |} /\
    registered le =
      [ ("leader-elect-lease-duration", durationValue pLeaseDuration,
         DefDuration (LeaseDuration (LeaderElection s)));
        ("leader-elect-renew-deadline", durationValue pRenewDeadline,
         DefDuration (RenewDeadline (LeaderElection s)));
        ("leader-elect-retry-period", durationValue pRetryPeriod,
         DefDuration (RetryPeriod (LeaderElection s)));
        ("leader-elect", boolValue pLeaderElect, DefBool (LeaderElect s));
        ("webhook-cert-dir", stringValue pWebhookCertDir,
         DefString (WebhookCertDir s)) ] /\
    registered ge =
      [ ("application-selector", stringValue pApplicationSelector,
         DefString (ApplicationSelector s)) ] /\
    (forall f,
       In f (formal kfs) ->
       exists gf,
         In gf klogFlags /\
         f = PFlagFromGoFlag klog_Value_String (renamed gf)) /\
    (forall gf,
       In gf klogFlags ->
       exists f, In f (formal kfs) /\ Name f = go_Name (renamed gf)).
Proof.
  destruct klog_flag_set as [kfs [Hk [Hfrom Hall]]].
  eexists _, _, kfs. split; [|split; [|split; [|split]]];
    [ | | | exact Hfrom | exact Hall ].
  - unfold Flags. cbv zeta.
    erewrite onFlagSet_fresh; [ | apply lookup_empty | reflexivity ].
    cbn [mbind option_bind Order FlagSets app].
    do 11 next_flag_set.
    erewrite onFlagSet_fresh;
      [ | cbn [FlagSets]; find_flag_set | exact Hk ].
    reflexivity.
  - reflexivity.
  - reflexivity.
Qed.

(** *** [Flags] *)

(** C8: [Flags] ends without a panic and returns thirteen flag sets, asked
    for in this order: one per sub-option group, named kubernetes, devops,
    s3, authentication, ldap, openpitrix, network, multicluster,
    servicemesh and gateway, each as the group's own [AddFlags] fills it
    with the group itself as the source of the defaults; leaderelection
    with the three duration flags, the leader-elect boolean flag and the
    webhook-cert-dir string flag; generic with the application-selector
    string flag; and the logging set, where every flag is a logging flag
    whose name has each underscore replaced by a hyphen, and every
    logging flag is present under that name.  The default of each flag of
    the file is the value of the field it is bound to, so on the
    constructed configuration the defaults are those of the constructor:
    30, 15 and 5 seconds, false and the empty string. *)
Theorem Flags_registers_all_groups :
  map flagSetName
    [Kubernetes; Devops; S3; Authentication; Ldap; OpenPitrix; Network;
     MultiCluster; ServiceMesh; Gateway] =
    ["kubernetes"; "devops"; "s3"; "authentication"; "ldap"; "openpitrix";
     "network"; "multicluster"; "servicemesh"; "gateway"] /\
  (forall s : KubeSphereControllerManagerOptions E,
     exists fss : NamedFlagSets klog_Value,
       Flags s = Some fss /\
       Order fss =
         map flagSetName
           [Kubernetes; Devops; S3; Authentication; Ldap; OpenPitrix;
            Network; MultiCluster; ServiceMesh; Gateway] ++
         ["leaderelection"; "generic"; "klog"] /\
       (forall g : Group,
          FlagSets fss !! flagSetName g =
            Some
              (Options_AddFlags g (group g s) (group g s)
                 (pflag_NewFlagSet klog_Value (flagSetName g)))) /\
       (exists le : FlagSet klog_Value,
          FlagSets fss !! "leaderelection" = Some le /\
          registered le =
            [ ("leader-elect-lease-duration", durationValue pLeaseDuration,
               DefDuration (LeaseDuration (LeaderElection s)));
              ("leader-elect-renew-deadline", durationValue pRenewDeadline,
               DefDuration (RenewDeadline (LeaderElection s)));
              ("leader-elect-retry-period", durationValue pRetryPeriod,
               DefDuration (RetryPeriod (LeaderElection s)));
              ("leader-elect", boolValue pLeaderElect,
               DefBool (LeaderElect s));
              ("webhook-cert-dir", stringValue pWebhookCertDir,
               DefString (WebhookCertDir s)) ]) /\
       (exists ge : FlagSet klog_Value,
          FlagSets fss !! "generic" = Some ge /\
          registered ge =
            [ ("application-selector", stringValue pApplicationSelector,
               DefString (ApplicationSelector s)) ]) /\
       (exists kfs : FlagSet klog_Value,
          FlagSets fss !! "klog" = Some kfs /\
          (forall f : Flag klog_Value,
             In f (formal kfs) ->
             ~ In "_"%char (list_ascii_of_string (Name f)) /\
             exists gf : goFlag klog_Value,
               In gf klogFlags /\
               list_ascii_of_string (Name f) =
                 map hyphenated (list_ascii_of_string (go_Name gf)) /\
               Usage f = go_Usage gf /\
               flag_Value f = flagValueWrapper (go_Value gf)) /\
          (forall gf : goFlag klog_Value,
             In gf klogFlags ->
             exists f : Flag klog_Value,
               In f (formal kfs) /\
               list_ascii_of_string (Name f) =
                 map hyphenated (list_ascii_of_string (go_Name gf))))) /\
  (exists fss : NamedFlagSets klog_Value,
     Flags NewKubeSphereControllerManagerOptions = Some fss /\
     (forall g : Group,
        FlagSets fss !! flagSetName g =
          Some
            (Options_AddFlags g (NewOptions g) (NewOptions g)
               (pflag_NewFlagSet klog_Value (flagSetName g)))) /\
     (exists le : FlagSet klog_Value,
        FlagSets fss !! "leaderelection" = Some le /\
        registered le =
          [ ("leader-elect-lease-duration", durationValue pLeaseDuration,
             DefDuration (30 * Second)%Z);
            ("leader-elect-renew-deadline", durationValue pRenewDeadline,
             DefDuration (15 * Second)%Z);
            ("leader-elect-retry-period", durationValue pRetryPeriod,
             DefDuration (5 * Second)%Z);
            ("leader-elect", boolValue pLeaderElect, DefBool false);
            ("webhook-cert-dir", stringValue pWebhookCertDir,
             DefString "") ]) /\
     (exists ge : FlagSet klog_Value,
        FlagSets fss !! "generic" = Some ge /\
        registered ge =
          [ ("application-selector", stringValue pApplicationSelector,
             DefString "") ])).
Proof.
  split; [reflexivity|]. split.
  - intros s.
    destruct (Flags_run s) as (le & ge & kfs & HF & Hle & Hge & Hfrom & Hall).
    eexists. split; [exact HF|]. cbn [Order FlagSets].
    split; [reflexivity|].
    split; [intros g; destruct g; vm_compute; reflexivity|].
    split; [exists le; split; [vm_compute; reflexivity | exact Hle]|].
    split; [exists ge; split; [vm_compute; reflexivity | exact Hge]|].
    exists kfs. split; [vm_compute; reflexivity|]. split.
    + intros f Hin. destruct (Hfrom f Hin) as [gf [Hgf ->]].
      cbn [Name PFlagFromGoFlag renamed go_Name go_Usage go_Value Usage
           flag_Value].
      rewrite strings_Replace_underscore.
      split; [apply hyphenated_no_underscore|].
      exists gf. repeat split. exact Hgf.
    + intros gf Hgf. destruct (Hall gf Hgf) as [f [Hin Hname]].
      exists f. split; [exact Hin|].
      rewrite Hname. cbn [renamed go_Name].
      apply strings_Replace_underscore.
  - destruct (Flags_run NewKubeSphereControllerManagerOptions)
      as (le & ge & kfs & HF & Hle & Hge & _).
    eexists. split; [exact HF|]. cbn [Order FlagSets].
    split; [intros g; destruct g; vm_compute; reflexivity|].
    split; [exists le; split; [vm_compute; reflexivity | exact Hle]|].
    exists ge; split; [vm_compute; reflexivity | exact Hge].
Qed.

End Properties.

(** ** The properties on the sample collaborators *)

(** A run on [Sample.broken]: seven groups report, the selector is
    rejected, and the three other groups are not heard. *)
Example Validate_broken :
  Validate (Sample.start Sample.broken) =
    (["devops"; "kubernetes"; "s3"; "openpitrix"; "network"; "ldap";
      "multicluster"; "unable to parse requirement"],
     {| conf := Sample.broken;
        calls :=
          [CallValidate Devops; CallValidate Kubernetes; CallValidate S3;
           CallValidate OpenPitrix; CallValidate Network; CallValidate Ldap;
           CallValidate MultiCluster; CallParse "=="] |}).
Proof. reflexivity. Qed.

(** With groups whose validation writes to its receiver, a second call
    need not repeat the first: the hypothesis on the groups in the
    property of repeated calls is needed. *)
Example Validate_twice_forgetful :
  fst (Validate {| conf := Sample.devops_only; calls := [] |}) = ["devops"] /\
  fst (Validate
         (snd (Validate {| conf := Sample.devops_only; calls := [] |}))) = [].
Proof. split; reflexivity. Qed.

(** [Flags] on the constructed sample: the order of the sets and the
    names in the logging set, in the order [VisitAll] hands them over. *)
Example Flags_fresh :
  (fun fss =>
     (Order fss,
      (fun kfs => map (@Name _) (formal kfs)) <$> FlagSets fss !! "klog"))
    <$> Flags Sample.fresh =
  Some
    (["kubernetes"; "devops"; "s3"; "authentication"; "ldap"; "openpitrix";
      "network"; "multicluster"; "servicemesh"; "gateway"; "leaderelection";
      "generic"; "klog"],
     Some ["log-dir"; "log-file-max-size"; "logtostderr"; "v"]).
Proof. vm_compute. reflexivity. Qed.

(** C1 fails as stated: on [Sample.unreached] the authentication, the
    service-mesh and the gateway group each report an error, yet
    [Validate] returns the empty list and calls the validation of the
    seven other groups only. *)
Lemma Validate_skips_three_groups :
  reports Authentication Sample.unreached
    = ["authentication options are invalid"] /\
  reports ServiceMesh Sample.unreached = ["servicemesh options are invalid"] /\
  reports Gateway Sample.unreached = ["gateway options are invalid"] /\
  fst (Validate (Sample.start Sample.unreached)) = [] /\
  newCalls (Sample.start Sample.unreached) =
    [CallValidate Devops; CallValidate Kubernetes; CallValidate S3;
     CallValidate OpenPitrix; CallValidate Network; CallValidate Ldap;
     CallValidate MultiCluster; CallParse "kubesphere.io/creator="].
Proof. repeat split. Qed.

Lemma Validate_collects_validated_groups_sample :
  In Ldap [Devops; Kubernetes; S3; OpenPitrix; Network; Ldap; MultiCluster] /\
  In (CallValidate Ldap) (newCalls (Sample.start Sample.broken)) /\
  forall e,
    In e (reports Ldap Sample.broken) ->
    In e (fst (Validate (Sample.start Sample.broken))).
Proof.
  assert (H : In Ldap [Devops; Kubernetes; S3; OpenPitrix; Network; Ldap; MultiCluster]) by (cbn; tauto).
  split; [exact H|].
  exact (@Validate_collects_validated_groups Sample.ext
           (Sample.start Sample.broken) Ldap H).
Defined.

Lemma Validate_constructed_is_clean_sample :
  (forall g,
     In g [Devops; Kubernetes; S3; OpenPitrix; Network; Ldap; MultiCluster] ->
     fst (@Options_Validate Sample.ext g (@NewOptions Sample.ext g)) = []) /\
  fst (Validate (Sample.start Sample.fresh)) = [].
Proof.
  assert (H : forall g,
            In g [Devops; Kubernetes; S3; OpenPitrix; Network; Ldap; MultiCluster] ->
            fst (@Options_Validate Sample.ext g (@NewOptions Sample.ext g))
              = [])
    by (intros g _; reflexivity).
  split; [exact H|].
  exact (@Validate_constructed_is_clean Sample.ext [] H).
Defined.

Lemma Validate_idempotent_sample :
  (forall g,
     In g [Devops; Kubernetes; S3; OpenPitrix; Network; Ldap; MultiCluster] ->
     snd (@Options_Validate Sample.ext g (group g Sample.broken))
       = group g Sample.broken) /\
  fst (Validate (snd (Validate (Sample.start Sample.broken)))) =
    fst (Validate (Sample.start Sample.broken)).
Proof.
  assert (H : forall g,
            In g [Devops; Kubernetes; S3; OpenPitrix; Network; Ldap;
                  MultiCluster] ->
            snd (@Options_Validate Sample.ext g (group g Sample.broken))
              = group g Sample.broken)
    by (intros g _; reflexivity).
  split; [exact H|].
  exact (@Validate_idempotent Sample.ext (Sample.start Sample.broken) H).
Defined.


Lemma Validate_ignores_leader_election_sample :
  (forall g, group g Sample.broken = group g Sample.broken_elsewhere) /\
  ApplicationSelector Sample.broken
    = ApplicationSelector Sample.broken_elsewhere /\
  LeaderElection Sample.broken <> LeaderElection Sample.broken_elsewhere /\
  fst (Validate (Sample.start Sample.broken)) =
    fst (Validate (Sample.start Sample.broken_elsewhere)).
Proof.
  assert (Hg : forall g,
             group g Sample.broken = group g Sample.broken_elsewhere)
    by (intros g; destruct g; reflexivity).
  split; [exact Hg|]. split; [reflexivity|]. split; [discriminate|].
  exact (@Validate_ignores_leader_election Sample.ext
           (Sample.start Sample.broken)
           (Sample.start Sample.broken_elsewhere) Hg eq_refl).
Defined.

(** ** Further properties of the file *)

Section FurtherProperties.
Context {E : External}.

Implicit Types (w : World E) (s : KubeSphereControllerManagerOptions E).

(** *** [Validate] *)

(** X1: the calls of a run, in order: the validations of DevOps,
    Kubernetes, S3, OpenPitrix, network, LDAP and multi-cluster, once
    each, and then, exactly when the application selector is not empty,
    one call of [labels.Parse] on the selector.  Errors reported on the
    way stop none of the later calls. *)
Theorem Validate_call_sequence w :
  exists t,
    newCalls w =
      [CallValidate Devops; CallValidate Kubernetes; CallValidate S3;
       CallValidate OpenPitrix; CallValidate Network; CallValidate Ldap;
       CallValidate MultiCluster] ++ t /\
    (ApplicationSelector (conf w) = "" -> t = []) /\
    (ApplicationSelector (conf w) <> "" ->
       t = [CallParse (ApplicationSelector (conf w))]).
Proof.
  exists (selectorCalls (ApplicationSelector (conf w))).
  split; [apply newCalls_run|].
  destruct (ApplicationSelector (conf w)) as [|c sel]; split;
    intros H; try reflexivity; congruence.
Qed.

Lemma groupErrors_nil s :
  groupErrors s = [] <-> forall g, In g validated -> reports g s = [].
Proof.
  unfold groupErrors. induction validated as [|g l IH]; cbn.
  - split; [intros _ g [] | reflexivity].
  - split.
    + intros H. apply app_eq_nil in H. destruct H as [Hg Hl].
      intros h [<- | Hh]; [exact Hg | exact (proj1 IH Hl h Hh)].
    + intros H. rewrite (H g (or_introl eq_refl)). cbn.
      apply IH. intros h Hh. apply H. right. exact Hh.
Qed.

Lemma selectorErrors_nil (selector : string) :
  selectorErrors selector = [] <->
  selector = "" \/ exists parsed, labels_Parse selector = inl parsed.
Proof.
  unfold selectorErrors. destruct selector as [|c sel]; cbn.
  - split; [left; reflexivity | reflexivity].
  - destruct (labels_Parse (String c sel)) as [parsed|err].
    + split; [right; exists parsed; reflexivity | reflexivity].
    + split; [discriminate|].
      intros [H | [parsed H]]; discriminate.
Qed.

(** X2: [Validate] returns the empty list exactly when each of the seven
    validated groups reports nothing and the application selector is
    empty or parses. *)
Theorem Validate_clean_iff w :
  fst (Validate w) = [] <->
  (forall g,
     In g [Devops; Kubernetes; S3; OpenPitrix; Network; Ldap; MultiCluster] ->
     reports g (conf w) = []) /\
  (ApplicationSelector (conf w) = "" \/
   exists parsed,
     labels_Parse (ApplicationSelector (conf w)) = inl parsed).
Proof.
  rewrite Validate_run. cbn [fst].
  rewrite <- groupErrors_nil, <- selectorErrors_nil.
  split.
  - intros H. apply app_eq_nil in H. exact H.
  - intros [H1 H2]. rewrite H1, H2. reflexivity.
Qed.

(** *** The renaming of the logging flags *)

Lemma hyphenated_idempotent (c : ascii) :
  hyphenated (hyphenated c) = hyphenated c.
Proof.
  unfold hyphenated. destruct (Ascii.eqb c "_") eqn:Hc; [reflexivity|].
  rewrite Hc. reflexivity.
Qed.

Lemma hyphenated_other (l : list ascii) :
  ~ In "_"%char l -> map hyphenated l = l.
Proof.
  induction l as [|c l IH]; intros H; [reflexivity|]. cbn.
  rewrite IH by (intros Hin; apply H; right; exact Hin).
  unfold hyphenated. destruct (Ascii.eqb c "_") eqn:Hc; [|reflexivity].
  apply Ascii.eqb_eq in Hc. exfalso. apply H. left. exact Hc.
Qed.

Lemma string_by_characters (a b : string) :
  list_ascii_of_string a = list_ascii_of_string b -> a = b.
Proof.
  intros H. rewrite <- (string_of_list_ascii_of_string a),
    <- (string_of_list_ascii_of_string b), H. reflexivity.
Qed.

Lemma string_length_characters (a : string) :
  String.length a = length (list_ascii_of_string a).
Proof. induction a as [|c a IH]; cbn; [reflexivity | rewrite IH; reflexivity]. Qed.

(** X6: the renaming done in the callback of [VisitAll] changes the name
    only: usage, value and default text stay.  The new name is as long as
    the old one, a name without underscore stays as it is, and renaming a
    renamed flag changes nothing. *)
Theorem renamed_properties (fl : goFlag klog_Value) :
  go_Usage (renamed fl) = go_Usage fl /\
  go_Value (renamed fl) = go_Value fl /\
  go_DefValue (renamed fl) = go_DefValue fl /\
  String.length (go_Name (renamed fl)) = String.length (go_Name fl) /\
  (~ In "_"%char (list_ascii_of_string (go_Name fl)) ->
   renamed fl = fl) /\
  renamed (renamed fl) = renamed fl.
Proof.
  assert (Hsame : forall x : string,
            ~ In "_"%char (list_ascii_of_string x) ->
            strings_Replace x "_" "-" (-1) = x).
  { intros x Hx. apply string_by_characters.
    rewrite strings_Replace_underscore. apply hyphenated_other. exact Hx. }
  repeat split.
  - cbn [renamed go_Name]. rewrite !string_length_characters.
    rewrite strings_Replace_underscore. apply length_map.
  - intros H. destruct fl as [n u v d]. unfold renamed. cbn in *.
    rewrite (Hsame n H). reflexivity.
  - assert (Hn : strings_Replace (go_Name (renamed fl)) "_" "-" (-1)
                 = go_Name (renamed fl)).
    { apply Hsame. cbn [renamed go_Name].
      rewrite strings_Replace_underscore. apply hyphenated_no_underscore. }
    unfold renamed at 1. rewrite Hn. reflexivity.
Qed.

(** *** [bindLeaderElectionFlags] *)

Lemma AddFlag_plain (flag : Flag klog_Value) (fs : FlagSet klog_Value) :
  Shorthand flag = "" ->
  AddFlag flag fs =
    match Lookup (Name flag) fs with
    | Some _ => None
    | None => Some {| name := name fs; formal := formal fs ++ [flag] |}
    end.
Proof.
  intros H. unfold AddFlag. rewrite H.
  destruct (Lookup (Name flag) fs); reflexivity.
Qed.

Lemma Lookup_added (n : string) (fs : FlagSet klog_Value)
    (f : Flag klog_Value) :
  Lookup n {| name := name fs; formal := formal fs ++ [f] |} =
    match Lookup n fs with
    | Some x => Some x
    | None => if String.eqb (Name f) n then Some f else None
    end.
Proof.
  unfold Lookup. cbn [formal]. induction (formal fs) as [|x l IH]; cbn.
  - destruct (String.eqb (Name f) n); reflexivity.
  - destruct (String.eqb (Name x) n); [reflexivity | exact IH].
Qed.

Lemma Lookup_defined (n : string) (fs : FlagSet klog_Value) :
  Lookup n fs <> None <-> In n (map (@Name klog_Value) (formal fs)).
Proof.
  split.
  - intros H. destruct (Lookup n fs) as [f|] eqn:Hf; [|contradiction].
    destruct (Lookup_Some _ _ _ Hf) as [Hin Hname].
    apply in_map_iff. exists f. split; assumption.
  - intros H Hnone. apply in_map_iff in H. destruct H as [f [Hname Hin]].
    exact (Lookup_None _ _ _ Hnone Hin Hname).
Qed.

(** X3: [bindLeaderElectionFlags] on any flag set.  It panics exactly
    when the set already defines one of the three names
    leader-elect-lease-duration, leader-elect-renew-deadline and
    leader-elect-retry-period.  Otherwise it keeps the name of the set
    and the flags it holds, and adds after them the three duration flags,
    in this order, each bound to its field of the configuration it is
    given and with that field's value as default. *)
Theorem bindLeaderElectionFlags_outcome (l : LeaderElectionConfig)
    (fs : FlagSet klog_Value) :
  (bindLeaderElectionFlags l fs = None <->
   exists n,
     In n ["leader-elect-lease-duration"; "leader-elect-renew-deadline";
           "leader-elect-retry-period"] /\
     In n (map (@Name klog_Value) (formal fs))) /\
  (forall fs',
     bindLeaderElectionFlags l fs = Some fs' ->
     name fs' = name fs /\
     exists added,
       formal fs' = formal fs ++ added /\
       map (fun f => (Name f, Shorthand f, flag_Value f, DefValue f)) added =
         [ ("leader-elect-lease-duration", "",
            durationValue pLeaseDuration, DefDuration (LeaseDuration l));
           ("leader-elect-renew-deadline", "",
            durationValue pRenewDeadline, DefDuration (RenewDeadline l));
           ("leader-elect-retry-period", "",
            durationValue pRetryPeriod, DefDuration (RetryPeriod l)) ]).
Proof.
  pose proof (Lookup_defined "leader-elect-lease-duration" fs) as D1.
  pose proof (Lookup_defined "leader-elect-renew-deadline" fs) as D2.
  pose proof (Lookup_defined "leader-elect-retry-period" fs) as D3.
  unfold bindLeaderElectionFlags, DurationVar, VarPF.
  rewrite AddFlag_plain by reflexivity. cbn [Name].
  destruct (Lookup "leader-elect-lease-duration" fs) as [f1|] eqn:L1.
  { cbn [mbind option_bind]. split; [|discriminate].
    split; [|reflexivity]. intros _.
    exists "leader-elect-lease-duration". split; [cbn; tauto|].
    apply D1. discriminate. }
  cbn [mbind option_bind].
  rewrite AddFlag_plain by reflexivity. cbn [Name].
  rewrite Lookup_added. cbn [Name].
  replace (String.eqb "leader-elect-lease-duration"
             "leader-elect-renew-deadline") with false by reflexivity.
  destruct (Lookup "leader-elect-renew-deadline" fs) as [f2|] eqn:L2.
  { cbn [mbind option_bind]. split; [|discriminate].
    split; [|reflexivity]. intros _.
    exists "leader-elect-renew-deadline". split; [cbn; tauto|].
    apply D2. discriminate. }
  cbn [mbind option_bind].
  rewrite AddFlag_plain by reflexivity. cbn [Name].
  rewrite !Lookup_added. cbn [Name].
  replace (String.eqb "leader-elect-lease-duration"
             "leader-elect-retry-period") with false by reflexivity.
  replace (String.eqb "leader-elect-renew-deadline"
             "leader-elect-retry-period") with false by reflexivity.
  destruct (Lookup "leader-elect-retry-period" fs) as [f3|] eqn:L3.
  { split; [|discriminate].
    split; [|reflexivity]. intros _.
    exists "leader-elect-retry-period". split; [cbn; tauto|].
    apply D3. discriminate. }
  split.
  - split; [discriminate|].
    intros [n [Hn Hin]]. exfalso. cbn in Hn.
    destruct Hn as [<- | [<- | [<- | []]]].
    + apply D1 in Hin. contradiction.
    + apply D2 in Hin. contradiction.
    + apply D3 in Hin. contradiction.
  - intros fs' Hfs'. injection Hfs' as <-. cbn [name formal].
    split; [reflexivity|].
    eexists. rewrite <- !app_assoc. split; reflexivity.
Qed.

(** *** The logging flag set *)

Ltac lookup_flag_set :=
  repeat (rewrite FlagSets_other by discriminate);
  first [ apply FlagSets_here | apply FlagSets_none ].

Ltac step_flag_set :=
  erewrite onFlagSet_fresh;
  [ | cbn [FlagSets]; lookup_flag_set | reflexivity ];
  cbn [mbind option_bind Order FlagSets app].

(** [Flags] with the walk over the logging flags in view. *)
Lemma Flags_klog s :
  exists (fss : NamedFlagSets klog_Value) (kfs : FlagSet klog_Value),
    Flags s = Some fss /\
    FlagSets fss !! "klog" = Some kfs /\
    VisitAll addKlogFlag (klog_InitFlags (flag_NewFlagSet klog_Value "klog"))
      (pflag_NewFlagSet klog_Value "klog") = Some kfs.
Proof.
  destruct klog_flag_set as [kfs [Hk _]].
  eexists _, kfs. split; [|split; [|exact Hk]].
  - unfold Flags. cbv zeta.
    erewrite onFlagSet_fresh; [ | apply lookup_empty | reflexivity ].
    cbn [mbind option_bind Order FlagSets app].
    do 11 step_flag_set.
    erewrite onFlagSet_fresh;
      [ | cbn [FlagSets]; lookup_flag_set | exact Hk ].
    reflexivity.
  - cbn [FlagSets]. apply FlagSets_here.
Qed.

Lemma NoDup_added {A : Type} (l : list A) (x : A) :
  List.NoDup l -> ~ In x l -> List.NoDup (l ++ [x]).
Proof.
  intros Hl Hx.
  apply (Permutation_NoDup (Permutation_cons_append l x)).
  constructor; assumption.
Qed.

Lemma AddGoFlag_distinct (fl : goFlag klog_Value)
    (fs fs' : FlagSet klog_Value) :
  List.NoDup (map (@Name klog_Value) (formal fs)) ->
  AddGoFlag klog_Value_String fl fs = Some fs' ->
  List.NoDup (map (@Name klog_Value) (formal fs')) /\
  length (formal fs') <= S (length (formal fs)).
Proof.
  intros Hnd. unfold AddGoFlag.
  destruct (Lookup (go_Name fl) fs) as [f|] eqn:Hlook.
  - intros H. injection H as <-. split; [exact Hnd | lia].
  - unfold AddFlag. cbn [Name PFlagFromGoFlag]. rewrite Hlook.
    assert (Hfresh : ~ In (go_Name fl) (map (@Name klog_Value) (formal fs))).
    { intros Hin. apply Lookup_defined in Hin. contradiction. }
    assert (Hgoal :
      List.NoDup (map (@Name klog_Value)
               (formal fs ++ [PFlagFromGoFlag klog_Value_String fl])) /\
      length (formal fs ++ [PFlagFromGoFlag klog_Value_String fl])
        <= S (length (formal fs))).
    { rewrite map_app, length_app. cbn. split; [|lia].
      apply NoDup_added; assumption. }
    destruct (String.get 0 _); [|intros H; injection H as <-; exact Hgoal].
    destruct (1 <? _)%nat; [discriminate|].
    destruct (shorthand_used _ _); [discriminate|].
    intros H. injection H as <-. exact Hgoal.
Qed.

Lemma visit_distinct (l : list (goFlag klog_Value)) :
  forall fs fs' : FlagSet klog_Value,
    List.NoDup (map (@Name klog_Value) (formal fs)) ->
    visit addKlogFlag l fs = Some fs' ->
    List.NoDup (map (@Name klog_Value) (formal fs')) /\
    length (formal fs') <= length (formal fs) + length l.
Proof.
  induction l as [|fl l IH]; intros fs fs' Hnd Hrun.
  - cbn in Hrun. injection Hrun as <-. split; [exact Hnd | lia].
  - cbn [visit] in Hrun.
    change (addKlogFlag fl fs)
      with (AddGoFlag klog_Value_String (renamed fl) fs) in Hrun.
    destruct (AddGoFlag klog_Value_String (renamed fl) fs) as [fs1|] eqn:Hadd;
      [|discriminate].
    cbn [mbind option_bind] in Hrun.
    destruct (AddGoFlag_distinct _ _ _ Hnd Hadd) as [Hnd1 Hlen1].
    destruct (IH fs1 fs' Hnd1 Hrun) as [Hnd' Hlen'].
    split; [exact Hnd'|]. cbn [length]. lia.
Qed.

Lemma sortFlags_Permutation (f : goFlagSet klog_Value) :
  Permutation (sortFlags f) (go_formal f).
Proof. apply merge_sort_Permutation. Qed.

(** X4: whatever flags the logging library defines, no two flags of the
    logging flag set built by [Flags] have the same name, and the set has
    at most as many flags as the library defines: a flag whose new name is
    already in the set is left out. *)
Theorem Flags_klog_names_distinct s :
  exists (fss : NamedFlagSets klog_Value) (kfs : FlagSet klog_Value),
    Flags s = Some fss /\
    FlagSets fss !! "klog" = Some kfs /\
    List.NoDup (map (@Name klog_Value) (formal kfs)) /\
    length (formal kfs) <= length klogFlags.
Proof.
  destruct (Flags_klog s) as (fss & kfs & HF & Hk & Hrun).
  exists fss, kfs. split; [exact HF|]. split; [exact Hk|].
  unfold VisitAll in Hrun.
  destruct (visit_distinct _ (pflag_NewFlagSet klog_Value "klog") kfs
              (List.NoDup_nil _) Hrun) as [Hnd Hlen].
  split; [exact Hnd|]. cbn in Hlen.
  rewrite (Permutation_length (sortFlags_Permutation _)) in Hlen.
  exact Hlen.
Qed.

Lemma AddGoFlag_fresh (fl : goFlag klog_Value) (fs : FlagSet klog_Value) :
  shorthand_ok fs ->
  Lookup (go_Name fl) fs = None ->
  AddGoFlag klog_Value_String fl fs =
    Some {| name := name fs;
            formal := formal fs ++ [PFlagFromGoFlag klog_Value_String fl] |}.
Proof.
  intros Hok Hlook.
  destruct (AddGoFlag_total fl fs Hok) as [fs1 [Hadd _]].
  revert Hadd. unfold AddGoFlag. rewrite Hlook. unfold AddFlag.
  cbn [Name PFlagFromGoFlag]. rewrite Hlook.
  destruct (String.get 0 _); [|intros _; reflexivity].
  destruct (1 <? _)%nat; [discriminate|].
  destruct (shorthand_used _ _); [discriminate|].
  intros _. reflexivity.
Qed.

Lemma visit_without_collision (l : list (goFlag klog_Value)) :
  forall fs : FlagSet klog_Value,
    shorthand_ok fs ->
    List.NoDup (map (fun gf => go_Name (renamed gf)) l) ->
    (forall gf, In gf l -> Lookup (go_Name (renamed gf)) fs = None) ->
    visit addKlogFlag l fs =
      Some {| name := name fs;
              formal :=
                formal fs ++
                map (fun gf => PFlagFromGoFlag klog_Value_String (renamed gf))
                  l |}.
Proof.
  induction l as [|fl l IH]; intros fs Hok Hnd Hfree.
  - cbn. rewrite app_nil_r. destruct fs; reflexivity.
  - cbn [visit].
    change (addKlogFlag fl fs)
      with (AddGoFlag klog_Value_String (renamed fl) fs).
    rewrite (AddGoFlag_fresh _ _ Hok (Hfree fl (or_introl eq_refl))).
    cbn [mbind option_bind].
    destruct (AddGoFlag_total (renamed fl) fs Hok)
      as [fs1 [Hadd [Hok1 _]]].
    rewrite (AddGoFlag_fresh _ _ Hok (Hfree fl (or_introl eq_refl))) in Hadd.
    injection Hadd as <-.
    inversion Hnd as [|n ns Hnotin Hnd' Heq]; subst.
    rewrite IH; [ | exact Hok1 | exact Hnd' | ].
    + cbn [name formal map]. rewrite <- app_assoc. reflexivity.
    + intros gf Hgf. rewrite Lookup_added.
      rewrite (Hfree gf (or_intror Hgf)). cbn [Name PFlagFromGoFlag].
      destruct (String.eqb (go_Name (renamed fl)) (go_Name (renamed gf)))
        eqn:Hsame; [|reflexivity].
      apply String.eqb_eq in Hsame. exfalso. apply Hnotin.
      apply in_map_iff. exists gf. split; [symmetry; exact Hsame | exact Hgf].
Qed.

#[local] Instance goFlag_le_total : Total (@goFlag_le klog_Value).
Proof. intros a b. unfold goFlag_le. apply String.leb_total. Qed.

(** X5: when the new names of the logging flags are pairwise distinct,
    the logging flag set holds one flag per logging flag, under its new
    name and with its usage and value, in the order [VisitAll] walks
    them: by their old names, lexicographically. *)
Theorem Flags_klog_order s :
  List.NoDup (map (fun gf => go_Name (renamed gf)) klogFlags) ->
  exists (fss : NamedFlagSets klog_Value) (kfs : FlagSet klog_Value)
         (visited : list (goFlag klog_Value)),
    Flags s = Some fss /\
    FlagSets fss !! "klog" = Some kfs /\
    Permutation visited klogFlags /\
    Sorted (@goFlag_le klog_Value) visited /\
    formal kfs =
      map (fun gf => PFlagFromGoFlag klog_Value_String (renamed gf)) visited.
Proof.
  intros Hnd.
  destruct (Flags_klog s) as (fss & kfs & HF & Hk & Hrun).
  exists fss, kfs,
    (sortFlags (klog_InitFlags (flag_NewFlagSet klog_Value "klog"))).
  split; [exact HF|]. split; [exact Hk|].
  split; [apply sortFlags_Permutation|].
  split; [apply Sorted_merge_sort; apply goFlag_le_total|].
  unfold VisitAll in Hrun.
  rewrite visit_without_collision in Hrun.
  - injection Hrun as <-. reflexivity.
  - intros f [].
  - apply (Permutation_NoDup
             (Permutation_map _
                (Permutation_sym (sortFlags_Permutation _)))).
    exact Hnd.
  - intros gf _. reflexivity.
Qed.

(** *** The named flag sets *)

(** X7: in what [Flags] returns, [Order] lists exactly the names that have
    a flag set, each once. *)
Theorem Flags_order_lists_the_sets s :
  exists fss : NamedFlagSets klog_Value,
    Flags s = Some fss /\
    List.NoDup (Order fss) /\
    forall n : string, is_Some (FlagSets fss !! n) <-> In n (Order fss).
Proof.
  destruct (Flags_run s) as (le & ge & kfs & HF & _).
  eexists. split; [exact HF|]. cbn [Order FlagSets]. split.
  - repeat (constructor; [cbn; intuition discriminate|]). constructor.
  - intros n. rewrite !lookup_insert_is_Some'. cbn [In].
    pose proof (lookup_empty_is_Some (A := FlagSet klog_Value) n) as Hempty.
    tauto.
Qed.

End FurtherProperties.

Lemma Flags_klog_order_sample :
  List.NoDup
    (map (fun gf => go_Name (renamed gf)) (@klogFlags Sample.ext)) /\
  exists (fss : NamedFlagSets (@klog_Value Sample.ext))
         (kfs : FlagSet (@klog_Value Sample.ext))
         (visited : list (goFlag (@klog_Value Sample.ext))),
    Flags Sample.fresh = Some fss /\
    FlagSets fss !! "klog" = Some kfs /\
    Permutation visited (@klogFlags Sample.ext) /\
    Sorted (@goFlag_le (@klog_Value Sample.ext)) visited /\
    formal kfs =
      map (fun gf =>
             PFlagFromGoFlag (@klog_Value_String Sample.ext) (renamed gf))
        visited.
Proof.
  assert (H : List.NoDup
                (map (fun gf => go_Name (renamed gf))
                   (@klogFlags Sample.ext))).
  { vm_compute. repeat (constructor; [cbn; intuition discriminate|]).
    constructor. }
  split; [exact H|].
  exact (@Flags_klog_order Sample.ext Sample.fresh H).
Defined.
